(** * Health and status components of the Next.js frontend

    A shallow embedding of
      - [src/components/HealthStatus.tsx]        (client-side poller),
      - [src/components/HealthStatusServer.tsx]  (server-rendered one-shot probe),
      - [src/components/JsonStatusServer.tsx]    (server-rendered JSON viewer),
    and the properties of their probing, lifecycle and rendering.

    The components are written against three host interfaces: the
    JavaScript value rules ([||], [??], truthiness), the Fetch API
    ([fetch], [Response.ok]) and React ([useState], [useEffect], JSX).
    Each interface gets a small module of its own; the component modules
    follow the source line by line on top of them. *)

From Stdlib Require Import List String Bool NArith Arith Lia DecimalString.
Import ListNotations.
Open Scope string_scope.

(** ** JavaScript values used by the components *)
Module Js.

(** A thrown value / rejection reason. *)
Definition Err := string.

(** Truthiness of a string: only the empty string is falsy. *)
Definition truthy (s : string) : bool := negb (String.eqb s "").

(** [v || d] for [v : string | undefined]: [undefined] and [""] are falsy. *)
Definition or_else (v : option string) (d : string) : string :=
  match v with
  | Some s => if truthy s then s else d
  | None => d
  end.

(** [v ?? d] for [v : string | undefined]: only [undefined] is nullish. *)
Definition nullish (v : option string) (d : string) : string :=
  match v with
  | Some s => s
  | None => d
  end.

(** ToString of a [string | undefined] argument. *)
Definition to_string (v : option string) : string :=
  match v with
  | Some s => s
  | None => "undefined"
  end.

(** Result of running a piece of code: it returns or it throws. *)
Inductive Completion (A : Type) : Type :=
| Normal (a : A)
| Throw (e : Err).
Arguments Normal {A} a.
Arguments Throw {A} e.

(** Code running over a store [S] of host state. *)
Definition M (S A : Type) : Type := S -> Completion A * S.

Definition ret {S A} (a : A) : M S A := fun s => (Normal a, s).

Definition throw {S A} (e : Err) : M S A := fun s => (Throw e, s).

Definition bind {S A B} (m : M S A) (k : A -> M S B) : M S B :=
  fun s =>
    match m s with
    | (Normal a, s') => k a s'
    | (Throw e, s') => (Throw e, s')
    end.

(** [try { body } catch (err) { handler }] *)
Definition try_catch {S A} (body : M S A) (handler : Err -> M S A) : M S A :=
  fun s =>
    match body s with
    | (Normal a, s') => (Normal a, s')
    | (Throw e, s') => handler e s'
    end.

Definition modify {S} (f : S -> S) : M S unit := fun s => (Normal tt, f s).

Definition gets {S A} (f : S -> A) : M S A := fun s => (Normal (f s), s).

End Js.

Declare Scope js_scope.
Delimit Scope js_scope with js.
Notation "x <- m ;; k" := (Js.bind m (fun x => k))
  (at level 61, m at next level, right associativity) : js_scope.
Notation "m ;; k" := (Js.bind m (fun _ => k))
  (at level 61, right associativity) : js_scope.

(** ** The Fetch API as the components use it *)
Module Fetch.
Import Js.

Inductive CacheMode : Type := CacheDefault | NoStore.

Inductive Method : Type := GET | POST.

(** The options object passed as second argument of [fetch]; the
    components only ever set [cache]. *)
Record RequestInit : Type := mkInit { init_cache : option CacheMode }.

Record Request : Type := mkReq {
  url : string;
  method : Method;
  cache : CacheMode
}.

(** The request [fetch(input, init)] performs: method [GET] and cache
    mode ["default"] unless the options say otherwise. *)
Definition request (input : string) (init : option RequestInit) : Request :=
  {| url := input;
     method := GET;
     cache := match init with
              | Some i => match init_cache i with
                          | Some c => c
                          | None => CacheDefault
                          end
              | None => CacheDefault
              end |}.

Record Response : Type := mkResp {
  status : N;
  statusText : string;
  body : string
}.

(** [Response.ok]: the status is in the range 200-299. *)
Definition ok (r : Response) : bool :=
  (200 <=? status r)%N && (status r <=? 299)%N.

(** How the promise returned by [fetch] settles. *)
Inductive Outcome : Type :=
| Fulfilled (r : Response)
| Rejected (e : Err).

(** [await p] for a promise that settled with [o]. *)
Definition await {S} (o : Outcome) : M S Response :=
  match o with
  | Fulfilled r => ret r
  | Rejected e => throw e
  end.

(** How the promise of [fetch] settles for a request. [fetch] first
    parses the URL: [url_error u] is the [TypeError] the host's URL
    parser raises on [u], if any. A URL that does not parse rejects the
    promise with that error; otherwise the network decides. *)
Definition promise (url_error : string -> option Err)
           (network : Request -> Outcome) (rq : Request) : Outcome :=
  match url_error (url rq) with
  | Some e => Rejected e
  | None => network rq
  end.

(** The requests a call of [fetch] puts on the network: none when the
    URL does not parse. *)
Definition sent (url_error : string -> option Err) (rq : Request)
  : list Request :=
  match url_error (url rq) with
  | Some _ => []
  | None => [rq]
  end.

(** [fetch(input, init)] in a server component. The store is the list
    of requests sent. *)
Definition perform (url_error : string -> option Err)
           (network : Request -> Outcome)
           (input : string) (init : option RequestInit)
  : M (list Request) Outcome :=
  fun log =>
    (Normal (promise url_error network (request input init)),
     (log ++ sent url_error (request input init))%list).

End Fetch.

(** ** JSX output *)
Module React.

#[local] Set Warnings "-register-all".
Inductive VNode : Type :=
| Element (tag : string) (className : string) (children : list VNode)
| Text (s : string)
| Number (n : N).

Definition decimal (n : N) : string := NilZero.string_of_uint (N.to_uint n).

(** The text a node shows: the concatenation of its text children. *)
Fixpoint textContent (v : VNode) : string :=
  match v with
  | Element _ _ children =>
      (fix go (l : list VNode) : string :=
         match l with
         | [] => ""
         | c :: l' => textContent c ++ go l'
         end) children
  | Text s => s
  | Number n => decimal n
  end.

End React.

(** ** [HealthStatus.tsx]: the client-side poller *)
Module HealthStatus.
Import Js Fetch React.
Local Open Scope js_scope.

(** An entry of the host's table of repeating timers. The only callback
    the component ever registers is [checkHealth]. *)
Record Timer : Type := mkTimer { handle : nat; delay : N }.

(** The place of the component on the page: the instance mounted there
    now (or last) together with the host state its instances touch. *)
Record State : Type := mkState {
  isHealthy : option bool;      (* the [useState<boolean | null>] cell *)
  active : bool;                (* an instance is mounted, its effect has run *)
  cleanup : option nat;         (* [interval] captured by the cleanup closure *)
  timers : list Timer;          (* host: live [setInterval] registrations *)
  next_timer : nat;             (* host: next timer handle *)
  inflight : list nat;          (* host: [fetch] promises not yet settled *)
  next_probe : nat;             (* host: next promise identifier *)
  fetch_log : list Request;     (* host: every request issued so far *)
  console : list Err;           (* host: [console.error] output *)
  unhandled : list Err;         (* host: exceptions nobody caught *)
  orphaned : list nat           (* pending promises awaited by the
                                   [checkHealth] of an unmounted instance *)
}.

(** [useState<boolean | null>(null)] on a fresh instance. *)
Definition init : State :=
  {| isHealthy := None; active := false; cleanup := None;
     timers := []; next_timer := 0;
     inflight := []; next_probe := 0;
     fetch_log := []; console := []; unhandled := []; orphaned := [] |}.

Definition with_isHealthy (v : option bool) (s : State) : State :=
  mkState v (active s) (cleanup s) (timers s) (next_timer s)
          (inflight s) (next_probe s) (fetch_log s) (console s) (unhandled s)
          (orphaned s).

Definition with_lifecycle (a : bool) (c : option nat) (s : State) : State :=
  mkState (isHealthy s) a c (timers s) (next_timer s)
          (inflight s) (next_probe s) (fetch_log s) (console s) (unhandled s)
          (orphaned s).

Definition with_timers (t : list Timer) (n : nat) (s : State) : State :=
  mkState (isHealthy s) (active s) (cleanup s) t n
          (inflight s) (next_probe s) (fetch_log s) (console s) (unhandled s)
          (orphaned s).

Definition with_fetch (i : list nat) (n : nat) (l : list Request) (s : State) : State :=
  mkState (isHealthy s) (active s) (cleanup s) (timers s) (next_timer s)
          i n l (console s) (unhandled s) (orphaned s).

Definition with_console (c : list Err) (s : State) : State :=
  mkState (isHealthy s) (active s) (cleanup s) (timers s) (next_timer s)
          (inflight s) (next_probe s) (fetch_log s) c (unhandled s)
          (orphaned s).

Definition with_unhandled (u : list Err) (s : State) : State :=
  mkState (isHealthy s) (active s) (cleanup s) (timers s) (next_timer s)
          (inflight s) (next_probe s) (fetch_log s) (console s) u
          (orphaned s).

Definition with_orphaned (o : list nat) (s : State) : State :=
  mkState (isHealthy s) (active s) (cleanup s) (timers s) (next_timer s)
          (inflight s) (next_probe s) (fetch_log s) (console s) (unhandled s)
          o.

(** *** Host operations *)

(** [fetch(input, init)]: records the request and hands back a pending
    promise. *)
Definition fetch (input : string) (opts : option RequestInit) : M State nat :=
  fun s =>
    (Normal (next_probe s),
     with_fetch (inflight s ++ [next_probe s]) (S (next_probe s))
                (fetch_log s ++ [request input opts]) s).

(** The setter [useState] returned to an instance, called while that
    instance is mounted: it writes the cell. *)
Definition setIsHealthy (b : bool) : M State unit :=
  modify (with_isHealthy (Some b)).

(** The same setter called after React has unmounted its instance:
    React drops the update, nothing is written. *)
Definition setIsHealthy_unmounted (b : bool) : M State unit :=
  ret tt.

Definition console_error (e : Err) : M State unit :=
  modify (fun s => with_console (console s ++ [e]) s).

Definition setInterval (ms : N) : M State nat :=
  fun s =>
    (Normal (next_timer s),
     with_timers (timers s ++ [mkTimer (next_timer s) ms]) (S (next_timer s)) s).

Definition clearInterval (h : nat) : M State unit :=
  modify (fun s =>
    with_timers (filter (fun t => negb (Nat.eqb (handle t) h)) (timers s))
                (next_timer s) s).

Definition timer_live (h : nat) (s : State) : bool :=
  existsb (fun t => Nat.eqb (handle t) h) (timers s).

Definition pending (p : nat) (s : State) : bool :=
  existsb (Nat.eqb p) (inflight s).

(** Whether the [checkHealth] awaiting promise [p] belongs to an
    instance that has been unmounted. *)
Definition orphan (p : nat) (s : State) : bool :=
  existsb (Nat.eqb p) (orphaned s).

Definition settle (p : nat) : M State unit :=
  modify (fun s =>
    with_orphaned (filter (fun q => negb (Nat.eqb q p)) (orphaned s))
      (with_fetch (filter (fun q => negb (Nat.eqb q p)) (inflight s))
                  (next_probe s) (fetch_log s) s)).

(** React creates an instance: [useState<boolean | null>(null)]. *)
Definition create_instance : M State unit :=
  modify (with_isHealthy None).

(** React has unmounted the instance: whatever its [checkHealth] calls
    still await is orphaned. *)
Definition discard_instance : M State unit :=
  modify (fun s => with_orphaned (orphaned s ++ inflight s) s).

Section Component.

(** [process.env.NEXT_PUBLIC_BACKEND_HEALTH_URL] *)
Variable NEXT_PUBLIC_BACKEND_HEALTH_URL : option string.

Definition backendHealthUrl : string :=
  or_else NEXT_PUBLIC_BACKEND_HEALTH_URL "".

(** [checkHealth] up to its [await]: the call of [fetch], which reports
    every failure through the promise it returns and throws nothing
    itself. *)
Definition checkHealth_issue : M State nat :=
  fetch backendHealthUrl None.

(** [checkHealth] from its [await] on, once the promise settled with
    [o]: the rest of the [try] block and the [catch] block. The setter
    is the one the closure captured. *)
Definition checkHealth_after_await (setIsHealthy : bool -> M State unit)
           (o : Outcome) : M State unit :=
  try_catch
    (res <- await o ;;
     setIsHealthy (ok res))
    (fun err =>
       console_error err ;;
       setIsHealthy false).

(** The continuation of a [checkHealth] whose instance is mounted. *)
Definition checkHealth_resume (o : Outcome) : M State unit :=
  checkHealth_after_await setIsHealthy o.

(** The continuation of a [checkHealth] whose instance was unmounted
    while the promise was pending. *)
Definition checkHealth_orphan (o : Outcome) : M State unit :=
  checkHealth_after_await setIsHealthy_unmounted o.

(** The body of the [useEffect] callback; its result is the value
    captured by the returned cleanup function, if one is returned. *)
Definition effect : M State (option nat) :=
  if negb (truthy backendHealthUrl) then ret None
  else
    checkHealth_issue ;;
    interval <- setInterval 10000 ;;
    ret (Some interval).

(** The cleanup function [() => clearInterval(interval)]. *)
Definition run_cleanup (c : option nat) : M State unit :=
  match c with
  | Some interval => clearInterval interval
  | None => ret tt
  end.

(** What the host and React do at the component's place. *)
Inductive Event : Type :=
| Mount                          (* React mounts an instance, runs its effect *)
| Unmount                        (* React runs the cleanup, unmounts the instance *)
| Tick (h : nat)                 (* the host fires timer [h] *)
| Settle (p : nat) (o : Outcome). (* promise [p] settles with [o] *)

(** Runs a handler; an exception it lets escape is recorded as
    unhandled. *)
Definition dispatch {A} (m : M State A) (s : State) : State :=
  match m s with
  | (Normal _, s') => s'
  | (Throw e, s') => with_unhandled (unhandled s' ++ [e]) s'
  end.

(** One event. React mounts an instance only where none is mounted and
    unmounts only a mounted one; an instance mounted after an unmount
    is a new one, with a new state cell. The host fires only registered
    timers and settles only pending promises; the continuation that
    runs then holds the setter of the instance that issued the probe. *)
Definition step (s : State) (ev : Event) : State :=
  match ev with
  | Mount =>
      if active s then s
      else dispatch (create_instance ;;
                     c <- effect ;;
                     modify (with_lifecycle true c)) s
  | Unmount =>
      if active s
      then dispatch (run_cleanup (cleanup s) ;;
                     modify (with_lifecycle false None) ;;
                     discard_instance) s
      else s
  | Tick h =>
      if timer_live h s then dispatch checkHealth_issue s else s
  | Settle p o =>
      if pending p s
      then dispatch (settle p ;;
                     if orphan p s then checkHealth_orphan o
                     else checkHealth_resume o) s
      else s
  end.

Definition run (s : State) (evs : list Event) : State :=
  fold_left step evs s.

(** The outcomes of the probes that complete along a run, in
    completion order. *)
Fixpoint completions (s : State) (evs : list Event) : list Outcome :=
  match evs with
  | [] => []
  | ev :: evs' =>
      match ev with
      | Settle p o => if pending p s then [o] else []
      | _ => []
      end ++ completions (step s ev) evs'
  end.

End Component.

(** What a completed probe says about the backend. *)
Definition verdict (o : Outcome) : bool :=
  match o with
  | Fulfilled r => ok r
  | Rejected _ => false
  end.

(** The JSX the component returns for a value of the state cell. *)
Definition view (isHealthy : option bool) : VNode :=
  match isHealthy with
  | None => Element "span" "text-gray-500" [Text "Checking..."]
  | Some b =>
      Element "div" "flex items-center gap-2"
        [ Element "div"
            ("h-3 w-3 rounded-full " ++
             (if b then "bg-green-500" else "bg-red-500")) [];
          Element "span" "text-sm"
            [Text (if b then "Backend healthy" else "Backend down")] ]
  end.

(** The most recent element of a list given in chronological order. *)
Definition latest {A} (l : list A) : option A :=
  fold_left (fun _ x => Some x) l None.

(** The request every probe of the poller performs: [fetch] is called
    with the URL alone. *)
Definition probe_request (env : option string) : Request :=
  request (backendHealthUrl env) None.

Definition is_tick_of (h : nat) (ev : Event) : bool :=
  match ev with
  | Tick h' => Nat.eqb h' h
  | _ => false
  end.

Definition is_mount (ev : Event) : bool :=
  match ev with
  | Mount => true
  | _ => false
  end.

Definition is_unmount (ev : Event) : bool :=
  match ev with
  | Unmount => true
  | _ => false
  end.

(** Whether an event makes the component call [fetch]. *)
Definition issues (env : option string) (s : State) (ev : Event) : bool :=
  match ev with
  | Mount => negb (active s) && truthy (backendHealthUrl env)
  | Tick h => timer_live h s
  | _ => false
  end.

Definition count_if {A} (f : A -> bool) (l : list A) : nat :=
  List.length (filter f l).

(** The timer table agrees with what the cleanup closure holds, and an
    instance whose effect is not live holds nothing. *)
Definition timer_owned (s : State) : Prop :=
  timers s = match cleanup s with
             | Some h => [mkTimer h 10000]
             | None => []
             end
  /\ (active s = false -> cleanup s = None).

(** A render of the function component: it reads the state cell and
    returns JSX. *)
Definition render : M State VNode :=
  b <- gets isHealthy ;;
  ret (view b).

End HealthStatus.

(** ** [HealthStatusServer.tsx] and [JsonStatusServer.tsx] *)
Module Server.
Import Js Fetch React.
Local Open Scope js_scope.

Section Components.

(** The [TypeError] of the host's URL parser on a URL it rejects, and
    how the network answers a request. *)
Variable url_error : string -> option Err.
Variable network : Request -> Outcome.

(** [process.env.BACKEND_HEALTH_URL] and [process.env.BACKEND_JSON_URL] *)
Variables BACKEND_HEALTH_URL BACKEND_JSON_URL : option string.

(** Parsed JSON documents, [Response.json()] on a body, and
    [JSON.stringify(data, null, 2)]. *)
Variable Data : Type.
Variable parse : string -> Err + Data.
Variable stringify_indent2 : Data -> string.

Definition json (res : Response) : M (list Request) Data :=
  match parse (body res) with
  | inl e => throw e
  | inr d => ret d
  end.

(** The non-null assertion on [process.env.BACKEND_HEALTH_URL] has no
    run-time effect: an absent variable reaches [fetch] as [undefined]. *)
Definition HealthStatusServer : M (list Request) VNode :=
  p <- perform url_error network (to_string BACKEND_HEALTH_URL)
               (Some {| init_cache := Some NoStore |}) ;;
  res <- await p ;;
  let isHealthy := ok res in
  ret (Element "div" "flex items-center gap-2"
         [ Element "div"
             ("h-3 w-3 rounded-full " ++
              (if isHealthy then "bg-green-500" else "bg-red-500")) [];
           Element "span" "text-sm"
             [Text (if isHealthy then "Backend healthy" else "Backend down")] ]).

Definition JsonStatusServer : M (list Request) VNode :=
  let url :=
    nullish BACKEND_JSON_URL "http://api-service:3000/api/content/data" in
  p <- perform url_error network url (Some {| init_cache := Some NoStore |}) ;;
  res <- await p ;;
  if negb (ok res) then
    ret (Element "div" "text-sm text-red-500"
           [ Text "Failed to fetch JSON: "; Number (status res);
             Text " "; Text (statusText res) ])
  else
    data <- json res ;;
    ret (Element "div" "text-sm space-y-1"
           [ Element "h3" "font-semibold" [Text "Backend JSON Response"];
             Element "pre" " p-2 rounded text-xs overflow-auto"
               [Text (stringify_indent2 data)] ]).

End Components.

(** The requests the two components send. *)
Definition health_request (BACKEND_HEALTH_URL : option string) : Request :=
  request (to_string BACKEND_HEALTH_URL) (Some {| init_cache := Some NoStore |}).

Definition json_request (BACKEND_JSON_URL : option string) : Request :=
  request (nullish BACKEND_JSON_URL "http://api-service:3000/api/content/data")
          (Some {| init_cache := Some NoStore |}).

(** The inline message [JsonStatusServer] returns for a response that
    is not ok. *)
Definition fetch_failed (res : Response) : VNode :=
  Element "div" "text-sm text-red-500"
    [ Text "Failed to fetch JSON: "; Number (status res);
      Text " "; Text (statusText res) ].

End Server.

(** ** Concrete configurations used in examples *)
Module Scenario.
Import Fetch.

Definition endpoint : option string := Some "https://api.example.com/health".

Definition respond (code : N) (text : string) : Response :=
  {| status := code; statusText := text; body := "" |}.

(** A URL parser that accepts the absolute http and https URLs. *)
Definition absolute (u : string) : option Js.Err :=
  if String.prefix "http://" u || String.prefix "https://" u
  then None
  else Some "TypeError: Invalid URL".

(** A network on which every request gets the same answer. *)
Definition always (o : Outcome) : Request -> Outcome := fun _ => o.

(** A JSON layer whose documents are their own source text. *)
Definition raw_parse (b : string) : Js.Err + string := inr b.

Definition raw_stringify (d : string) : string := d.

End Scenario.

(** ** [Button.tsx] and the mock of [Button.test.tsx] *)
Module Button.
Import Js React.

Section Component.

(** The store the click handler runs over. *)
Variable Store : Type.

Record ButtonProps : Type := mkProps {
  text : string;
  onClick : M Store unit
}.

(** A rendered [<button>]: its children and its click listener. *)
Record ButtonElement : Type := mkButton {
  children : list VNode;
  listener : M Store unit
}.

Definition Button (props : ButtonProps) : ButtonElement :=
  {| children := [Text (text props)];
     listener := onClick props |}.

(** [fireEvent.click(button)]: the listener runs; what it throws is
    reported by the host and does not reach the caller. *)
Definition click (b : ButtonElement) (s : Store) : Store := snd (listener b s).

(** [n] clicks in a row. *)
Definition clicks (n : nat) (b : ButtonElement) (s : Store) : Store :=
  Nat.iter n (click b) s.

End Component.

(** [jest.fn()]: a handler that only counts its calls. *)
Definition jest_fn : M nat unit := modify S.

End Button.

(** ** Observations on runs of the poller *)
Module Observe.
Import Js Fetch HealthStatus.

(** The reasons of the rejected probes among completed ones, in order. *)
Definition rejections (l : list Outcome) : list Err :=
  flat_map (fun o => match o with
                     | Fulfilled _ => []
                     | Rejected e => [e]
                     end) l.

(** Pending promises are distinct and were all handed out already. *)
Definition inflight_fresh (s : State) : Prop :=
  NoDup (inflight s) /\ Forall (fun p => p < next_probe s) (inflight s).

(** The place has seen no unmount yet: nothing is orphaned, and as long
    as nothing is mounted the cell is untouched and no probe is out. *)
Definition never_unmounted (s : State) : Prop :=
  orphaned s = []
  /\ timer_owned s
  /\ (active s = true \/ (isHealthy s = None /\ inflight s = [])).

(** Nothing is mounted at the place: no timer is registered and every
    pending promise is an orphan. *)
Definition unmounted (s : State) : Prop :=
  active s = false /\ timers s = [] /\ incl (inflight s) (orphaned s).

End Observe.

(** * Properties *)

Import Js Fetch React HealthStatus Server Scenario Observe.
Open Scope list_scope.

(** ** Host interface facts *)

Lemma ok_iff_2xx (r : Response) :
  ok r = true <-> (200 <= status r <= 299)%N.
Proof.
  unfold ok. rewrite andb_true_iff, !N.leb_le. tauto.
Qed.

Lemma truthy_false_iff (s : string) : truthy s = false <-> s = "".
Proof.
  unfold truthy. rewrite negb_false_iff. apply String.eqb_eq.
Qed.

Lemma truthy_true_iff (s : string) : truthy s = true <-> s <> "".
Proof.
  destruct (truthy s) eqn:T.
  - split; [|reflexivity]. intros _ E. apply truthy_false_iff in E. congruence.
  - apply truthy_false_iff in T. split; [discriminate|]. intros N. contradiction.
Qed.

Lemma backendHealthUrl_empty_iff (env : option string) :
  backendHealthUrl env = "" <-> env = None \/ env = Some "".
Proof.
  unfold backendHealthUrl, or_else. destruct env as [u|].
  - destruct (truthy u) eqn:T.
    + split.
      * intros ->. discriminate T.
      * intros [H|H]; [discriminate H|]. injection H as ->. discriminate T.
    + apply truthy_false_iff in T. subst u. split; auto.
  - split; auto.
Qed.

Lemma latest_app {A} (l : list A) (x : A) : latest (l ++ [x]) = Some x.
Proof. unfold latest. rewrite fold_left_app. reflexivity. Qed.

Lemma latest_none_iff {A} (l : list A) : latest l = None <-> l = [].
Proof.
  destruct l as [|x l] using rev_ind; [split; reflexivity|].
  rewrite latest_app. split; [discriminate|].
  intros E. destruct l; discriminate E.
Qed.

Lemma string_app_empty (s : string) : (s ++ "")%string = s.
Proof.
  induction s as [|c s IH]; simpl; [reflexivity|]. rewrite IH. reflexivity.
Qed.

Lemma filter_out_absent (p : nat) (l : list nat) :
  ~ In p l -> filter (fun q => negb (Nat.eqb q p)) l = l.
Proof.
  induction l as [|b l IH]; intros NI; [reflexivity|].
  simpl. destruct (Nat.eqb b p) eqn:E; simpl.
  - apply Nat.eqb_eq in E. subst b. exfalso. apply NI. left. reflexivity.
  - f_equal. apply IH. intros H. apply NI. right. exact H.
Qed.

Lemma filter_out_length (p : nat) (l : list nat) :
  NoDup l -> In p l ->
  S (List.length (filter (fun q => negb (Nat.eqb q p)) l)) = List.length l.
Proof.
  induction l as [|a l IH]; intros ND I; [contradiction|].
  inversion ND as [|? ? NI ND']; subst. simpl.
  destruct (Nat.eqb a p) eqn:E; simpl.
  - apply Nat.eqb_eq in E. subst a.
    rewrite (filter_out_absent p l NI). reflexivity.
  - f_equal. apply IH; [exact ND'|].
    destruct I as [->|I]; [|exact I].
    rewrite Nat.eqb_refl in E. discriminate E.
Qed.

Lemma filter_out_In (p q : nat) (l : list nat) :
  In q (filter (fun x => negb (Nat.eqb x p)) l) <-> In q l /\ q <> p.
Proof.
  rewrite filter_In, negb_true_iff, Nat.eqb_neq. tauto.
Qed.

Lemma existsb_eqb_In (p : nat) (l : list nat) :
  existsb (Nat.eqb p) l = true <-> In p l.
Proof.
  rewrite existsb_exists. split.
  - intros (q & I & E). apply Nat.eqb_eq in E. subst q. exact I.
  - intros I. exists p. split; [exact I|apply Nat.eqb_refl].
Qed.

Lemma pending_In p s : pending p s = true <-> In p (inflight s).
Proof. apply existsb_eqb_In. Qed.

Lemma orphan_In p s : orphan p s = true <-> In p (orphaned s).
Proof. apply existsb_eqb_In. Qed.

(** ** Single steps of the poller *)

Ltac unfold_step :=
  unfold step, dispatch, effect, run_cleanup, checkHealth_issue,
    checkHealth_resume, checkHealth_orphan, checkHealth_after_await,
    create_instance, discard_instance,
    HealthStatus.fetch, setInterval, clearInterval,
    setIsHealthy, setIsHealthy_unmounted, console_error, settle,
    await, try_catch, bind, ret, throw, modify, gets in *.

Ltac step_cases env s ev :=
  destruct ev as [| |?h|?p [?r|?e]]; unfold_step;
  [ destruct (active s); [|destruct (truthy (backendHealthUrl env))]
  | destruct (active s); [destruct (cleanup s)|]
  | destruct (timer_live h s)
  | destruct (pending p s); [destruct (orphan p s)|]
  | destruct (pending p s); [destruct (orphan p s)|] ].

Lemma step_isHealthy env s ev :
  isHealthy (step env s ev) =
  match ev with
  | Mount => if active s then isHealthy s else None
  | Settle p o =>
      if pending p s && negb (orphan p s) then Some (verdict o)
      else isHealthy s
  | _ => isHealthy s
  end.
Proof. step_cases env s ev; reflexivity. Qed.

Lemma step_unhandled env s ev : unhandled (step env s ev) = unhandled s.
Proof. step_cases env s ev; reflexivity. Qed.

Lemma step_console env s ev :
  console (step env s ev) =
  match ev with
  | Settle p (Rejected e) => if pending p s then console s ++ [e] else console s
  | _ => console s
  end.
Proof. step_cases env s ev; reflexivity. Qed.

Lemma step_fetch_log env s ev :
  fetch_log (step env s ev) =
  if issues env s ev then fetch_log s ++ [probe_request env] else fetch_log s.
Proof. unfold issues, probe_request. step_cases env s ev; reflexivity. Qed.

Lemma step_inflight env s ev :
  inflight (step env s ev) =
  match ev with
  | Settle p _ =>
      if pending p s
      then filter (fun q => negb (Nat.eqb q p)) (inflight s)
      else inflight s
  | _ => if issues env s ev then inflight s ++ [next_probe s] else inflight s
  end
  /\ next_probe (step env s ev)
     = if issues env s ev then S (next_probe s) else next_probe s.
Proof. unfold issues. step_cases env s ev; split; reflexivity. Qed.

Lemma step_orphaned env s ev :
  orphaned (step env s ev) =
  match ev with
  | Unmount => if active s then orphaned s ++ inflight s else orphaned s
  | Settle p _ =>
      if pending p s
      then filter (fun q => negb (Nat.eqb q p)) (orphaned s)
      else orphaned s
  | _ => orphaned s
  end.
Proof. step_cases env s ev; reflexivity. Qed.

Lemma step_active env s ev :
  active (step env s ev) =
  match ev with
  | Mount => true
  | Unmount => false
  | _ => active s
  end.
Proof.
  destruct ev as [| |h|p o]; unfold_step.
  - destruct (active s) eqn:A; [exact A|].
    destruct (truthy (backendHealthUrl env)); reflexivity.
  - destruct (active s) eqn:A; [|exact A].
    destruct (cleanup s); reflexivity.
  - destruct (timer_live h s); reflexivity.
  - destruct (pending p s); [|reflexivity].
    destruct (orphan p s), o; reflexivity.
Qed.

Lemma step_timers_kept env s ev :
  is_mount ev = false -> is_unmount ev = false ->
  timers (step env s ev) = timers s /\ cleanup (step env s ev) = cleanup s.
Proof.
  destruct ev as [| |h|p o]; try discriminate; intros _ _; unfold_step.
  - destruct (timer_live h s); split; reflexivity.
  - destruct (pending p s); [|split; reflexivity].
    destruct (orphan p s), o; split; reflexivity.
Qed.

Lemma step_timer_owned env s ev :
  timer_owned s -> timer_owned (step env s ev).
Proof.
  unfold timer_owned. intros [Ht Hc].
  destruct ev as [| |h|p o]; unfold_step.
  - destruct (active s) eqn:A; [simpl; rewrite A; split; assumption|].
    rewrite (Hc eq_refl) in Ht.
    destruct (truthy (backendHealthUrl env)); simpl.
    + rewrite Ht. split; [reflexivity|discriminate].
    + rewrite Ht. split; [reflexivity|discriminate].
  - destruct (active s) eqn:A; [|simpl; rewrite A; split; assumption].
    destruct (cleanup s) as [c|]; simpl.
    + rewrite Ht. simpl. rewrite Nat.eqb_refl. simpl. auto.
    + rewrite Ht. auto.
  - destruct (timer_live h s); simpl; auto.
  - destruct (pending p s); [|split; assumption].
    destruct (orphan p s), o; simpl; auto.
Qed.

Lemma init_timer_owned : timer_owned init.
Proof. split; reflexivity. Qed.

Lemma timer_owned_bound s :
  timer_owned s ->
  List.length (timers s) <= 1 /\ (active s = false -> timers s = []).
Proof.
  intros [Ht Hc]. split.
  - rewrite Ht. destruct (cleanup s); simpl; lia.
  - intros A. rewrite Ht, (Hc A). reflexivity.
Qed.

Lemma step_inflight_fresh env s ev :
  inflight_fresh s -> inflight_fresh (step env s ev).
Proof.
  unfold inflight_fresh. intros [ND B].
  destruct (step_inflight env s ev) as [I N]. rewrite I, N. clear I N.
  assert (Grow : NoDup (inflight s ++ [next_probe s])
                 /\ Forall (fun p => p < S (next_probe s))
                           (inflight s ++ [next_probe s])).
  { split.
    - apply NoDup_app; [exact ND|repeat constructor; intros []|].
      intros a Ia [<-|[]]. rewrite Forall_forall in B.
      apply B in Ia. lia.
    - apply Forall_app. split.
      + eapply Forall_impl; [|exact B]. simpl. intros a H. lia.
      + repeat constructor. }
  destruct ev as [| |h|p o].
  - destruct (issues env s Mount); [exact Grow|split; assumption].
  - simpl. split; assumption.
  - destruct (issues env s (Tick h)); [exact Grow|split; assumption].
  - simpl. destruct (pending p s); [|split; assumption]. split.
    + apply NoDup_filter. exact ND.
    + rewrite Forall_forall in *. intros a Ia.
      apply filter_In in Ia. apply B, Ia.
Qed.

Lemma init_inflight_fresh : inflight_fresh init.
Proof. split; constructor. Qed.

(** ** Runs of the poller *)

Lemma run_app env s evs1 evs2 :
  run env s (evs1 ++ evs2) = run env (run env s evs1) evs2.
Proof. apply fold_left_app. Qed.

Lemma run_cons env s ev evs :
  run env s (ev :: evs) = run env (step env s ev) evs.
Proof. reflexivity. Qed.

Lemma run_timer_owned env evs s :
  timer_owned s -> timer_owned (run env s evs).
Proof.
  revert s. induction evs as [|ev evs IH]; intros s H; [exact H|].
  rewrite run_cons. apply IH, step_timer_owned, H.
Qed.

Lemma run_inflight_fresh env evs s :
  inflight_fresh s -> inflight_fresh (run env s evs).
Proof.
  revert s. induction evs as [|ev evs IH]; intros s H; [exact H|].
  rewrite run_cons. apply IH, step_inflight_fresh, H.
Qed.

Lemma run_unhandled env evs s :
  unhandled (run env s evs) = unhandled s.
Proof.
  revert s. induction evs as [|ev evs IH]; intros s; [reflexivity|].
  rewrite run_cons, IH. apply step_unhandled.
Qed.

Lemma completions_app env evs1 evs2 : forall s,
  completions env s (evs1 ++ evs2)
  = completions env s evs1 ++ completions env (run env s evs1) evs2.
Proof.
  induction evs1 as [|ev evs1 IH]; intros s; [reflexivity|].
  simpl. rewrite IH, app_assoc. reflexivity.
Qed.

Lemma fold_verdict_latest (l : list Outcome) (v : option bool) :
  fold_left (fun _ o => Some (verdict o)) l v =
  match latest l with
  | Some o => Some (verdict o)
  | None => v
  end.
Proof.
  destruct l as [|x l] using rev_ind; [reflexivity|].
  rewrite latest_app, fold_left_app. reflexivity.
Qed.

(** Before any unmount, every completing probe writes the status. *)
Lemma step_never_unmounted env s ev :
  never_unmounted s -> is_unmount ev = false ->
  never_unmounted (step env s ev)
  /\ isHealthy (step env s ev)
     = match ev with
       | Settle p o => if pending p s then Some (verdict o) else isHealthy s
       | _ => isHealthy s
       end.
Proof.
  intros (O & Own & Live) NU.
  assert (Orph : forall p, orphan p s = false).
  { intros p. unfold orphan. rewrite O. reflexivity. }
  assert (Idle : active s = false ->
                 isHealthy s = None /\ inflight s = [] /\ timers s = []).
  { intros A. destruct Live as [A'|[H I]]; [congruence|].
    repeat split; auto. apply (timer_owned_bound s Own), A. }
  split.
  - split; [|split].
    + rewrite step_orphaned, O.
      destruct ev as [| |h|p o]; try reflexivity; [discriminate NU|].
      destruct (pending p s); reflexivity.
    + apply step_timer_owned, Own.
    + rewrite step_active. destruct ev as [| |h|p o]; try discriminate NU.
      * left. reflexivity.
      * destruct (active s) eqn:A; [left; reflexivity|right].
        destruct (Idle eq_refl) as (H & I & T).
        rewrite step_isHealthy, (proj1 (step_inflight env s (Tick h))).
        unfold issues, timer_live. rewrite T. simpl. auto.
      * destruct (active s) eqn:A; [left; reflexivity|right].
        destruct (Idle eq_refl) as (H & I & T).
        rewrite step_isHealthy, (proj1 (step_inflight env s (Settle p o))).
        unfold pending. rewrite I. simpl. auto.
  - rewrite step_isHealthy. destruct ev as [| |h|p o]; try reflexivity.
    + destruct (active s) eqn:A; [reflexivity|].
      symmetry. apply (Idle eq_refl).
    + rewrite Orph, andb_true_r. reflexivity.
Qed.

Lemma init_never_unmounted : never_unmounted init.
Proof.
  split; [reflexivity|]. split; [apply init_timer_owned|].
  right. split; reflexivity.
Qed.

(** As long as no unmount takes place, the status after a run is the
    verdict of the last probe that completed in it, or the one the run
    started with if none did. *)
Lemma run_isHealthy env evs : forall s,
  never_unmounted s ->
  forallb (fun ev => negb (is_unmount ev)) evs = true ->
  isHealthy (run env s evs) =
  fold_left (fun _ o => Some (verdict o)) (completions env s evs) (isHealthy s).
Proof.
  induction evs as [|ev evs IH]; intros s Inv NU; [reflexivity|].
  simpl in NU. apply andb_true_iff in NU as [U NU].
  apply negb_true_iff in U.
  destruct (step_never_unmounted env s ev Inv U) as [Inv' H].
  rewrite run_cons, (IH _ Inv' NU), H. simpl completions.
  rewrite fold_left_app. f_equal.
  destruct ev as [| |h|p o]; try reflexivity.
  destruct (pending p s); reflexivity.
Qed.

(** While an instance is mounted and its timer [h] registered, every
    firing of [h] adds one request and nothing else does. *)
Lemma run_fetch_log_live env h evs : forall s,
  active s = true -> timers s = [mkTimer h 10000] ->
  forallb (fun ev => negb (is_unmount ev)) evs = true ->
  fetch_log (run env s evs) =
  fetch_log s ++ repeat (probe_request env) (count_if (is_tick_of h) evs).
Proof.
  induction evs as [|ev evs IH]; intros s A T NU.
  - simpl. rewrite app_nil_r. reflexivity.
  - simpl in NU. apply andb_true_iff in NU as [U NU].
    apply negb_true_iff in U.
    rewrite run_cons, IH; [| | |exact NU].
    + rewrite step_fetch_log. unfold count_if. simpl filter.
      destruct ev as [| |h'|p o]; simpl; try discriminate U.
      * rewrite A. reflexivity.
      * unfold timer_live. rewrite T. simpl.
        rewrite orb_false_r, (Nat.eqb_sym h h').
        destruct (Nat.eqb h' h); simpl; [|reflexivity].
        rewrite <- app_assoc. reflexivity.
      * reflexivity.
    + rewrite step_active. destruct ev; try reflexivity; try exact A.
      discriminate U.
    + destruct ev as [| |h'|p o]; try discriminate U.
      * unfold step. rewrite A. exact T.
      * rewrite (proj1 (step_timers_kept env s (Tick h') eq_refl eq_refl)). exact T.
      * rewrite (proj1 (step_timers_kept env s (Settle p o) eq_refl eq_refl)). exact T.
Qed.

(** While nothing is mounted, no request is issued and no completing
    probe reaches a state cell. *)
Lemma step_unmounted env s ev :
  unmounted s -> is_mount ev = false ->
  unmounted (step env s ev)
  /\ isHealthy (step env s ev) = isHealthy s
  /\ fetch_log (step env s ev) = fetch_log s.
Proof.
  intros (A & T & I) NM.
  destruct ev as [| |h|p o]; try discriminate NM.
  - unfold step. rewrite A. repeat split; assumption.
  - assert (L : timer_live h s = false).
    { unfold timer_live. rewrite T. reflexivity. }
    unfold step. rewrite L. repeat split; assumption.
  - rewrite step_isHealthy, step_fetch_log. simpl issues. cbv iota.
    split; [|split; [|reflexivity]].
    + split; [rewrite step_active; exact A|]. split.
      * rewrite (proj1 (step_timers_kept env s (Settle p o) eq_refl eq_refl)).
        exact T.
      * rewrite (proj1 (step_inflight env s (Settle p o))), step_orphaned.
        destruct (pending p s); [|exact I].
        intros q Q. apply filter_out_In in Q as [Q N].
        apply filter_out_In. split; [apply I, Q|exact N].
    + destruct (pending p s) eqn:P; [|reflexivity].
      apply pending_In, I, orphan_In in P. rewrite P. reflexivity.
Qed.

Lemma run_unmounted env evs : forall s,
  unmounted s ->
  forallb (fun ev => negb (is_mount ev)) evs = true ->
  unmounted (run env s evs)
  /\ isHealthy (run env s evs) = isHealthy s
  /\ fetch_log (run env s evs) = fetch_log s.
Proof.
  induction evs as [|ev evs IH]; intros s U NM; [auto|].
  simpl in NM. apply andb_true_iff in NM as [M NM].
  apply negb_true_iff in M.
  destruct (step_unmounted env s ev U M) as (U' & H & F).
  destruct (IH _ U' NM) as (U2 & H2 & F2).
  rewrite run_cons, H2, F2, H, F. auto.
Qed.

(** An unmount leaves nothing mounted and changes neither the status
    nor the requests issued. *)
Lemma step_unmount env s :
  timer_owned s ->
  (active s = false -> incl (inflight s) (orphaned s)) ->
  unmounted (step env s Unmount)
  /\ isHealthy (step env s Unmount) = isHealthy s
  /\ fetch_log (step env s Unmount) = fetch_log s.
Proof.
  intros Own Idle.
  pose proof (step_timer_owned env s Unmount Own) as Own'.
  apply timer_owned_bound in Own' as [_ T].
  rewrite step_active in T.
  split; [|split].
  - split; [apply step_active|]. split; [apply T; reflexivity|].
    rewrite (proj1 (step_inflight env s Unmount)), step_orphaned. simpl.
    destruct (active s) eqn:A; [|apply Idle; reflexivity].
    apply incl_appr, incl_refl.
  - apply step_isHealthy.
  - apply (step_fetch_log env s Unmount).
Qed.

(** Wherever nothing is mounted, every pending promise is an orphan. *)
Lemma run_idle_orphans env evs : forall s,
  timer_owned s ->
  (active s = false -> incl (inflight s) (orphaned s)) ->
  active (run env s evs) = false ->
  incl (inflight (run env s evs)) (orphaned (run env s evs)).
Proof.
  induction evs as [|ev evs IH]; intros s Own Idle; [exact Idle|].
  rewrite run_cons. apply IH; [apply step_timer_owned, Own|].
  intros A.
  destruct ev as [| |h|p o].
  - rewrite step_active in A. discriminate A.
  - apply (step_unmount env s Own Idle).
  - rewrite step_active in A.
    apply (step_unmounted env s (Tick h)); [|reflexivity].
    split; [exact A|]. split; [apply (timer_owned_bound s Own), A|].
    apply Idle, A.
  - rewrite step_active in A.
    apply (step_unmounted env s (Settle p o)); [|reflexivity].
    split; [exact A|]. split; [apply (timer_owned_bound s Own), A|].
    apply Idle, A.
Qed.

(** A promise that has settled does not become pending again. *)
Lemma step_settled_stays env s ev p :
  p < next_probe s -> pending p s = false ->
  pending p (step env s ev) = false /\ p < next_probe (step env s ev).
Proof.
  intros B P.
  destruct (step_inflight env s ev) as [I N]. split.
  - apply not_true_is_false. intros Q. apply pending_In in Q.
    apply not_true_iff_false in P. apply P, pending_In.
    rewrite I in Q.
    destruct ev as [| |h|q o].
    + destruct (issues env s Mount); [|exact Q].
      apply in_app_or in Q as [Q|[Q|[]]]; [exact Q|lia].
    + exact Q.
    + destruct (issues env s (Tick h)); [|exact Q].
      apply in_app_or in Q as [Q|[Q|[]]]; [exact Q|lia].
    + destruct (pending q s); [|exact Q].
      apply filter_out_In in Q. apply Q.
  - rewrite N. destruct (issues env s ev); lia.
Qed.

Lemma run_settled_stays env evs : forall s p,
  p < next_probe s -> pending p s = false ->
  pending p (run env s evs) = false.
Proof.
  induction evs as [|ev evs IH]; intros s p B P; [exact P|].
  destruct (step_settled_stays env s ev p B P) as [P' B'].
  rewrite run_cons. apply IH; assumption.
Qed.

(** An orphaned promise stays an orphan until it settles. *)
Lemma step_orphan_stays env s ev p :
  orphan p s = true -> pending p (step env s ev) = true ->
  orphan p (step env s ev) = true.
Proof.
  intros O P. apply orphan_In. apply orphan_In in O.
  rewrite step_orphaned.
  destruct ev as [| |h|q o]; try exact O.
  - destruct (active s); [apply in_or_app; left|]; exact O.
  - apply pending_In in P.
    rewrite (proj1 (step_inflight env s (Settle q o))) in P.
    destruct (pending q s); [|exact O].
    apply filter_out_In in P as [_ N]. apply filter_out_In. auto.
Qed.

Lemma run_orphan_stays env evs : forall s p,
  p < next_probe s -> orphan p s = true ->
  pending p (run env s evs) = true ->
  orphan p (run env s evs) = true.
Proof.
  induction evs as [|ev evs IH]; intros s p B O P; [exact O|].
  rewrite run_cons in *.
  assert (B' : p < next_probe (step env s ev)).
  { rewrite (proj2 (step_inflight env s ev)).
    destruct (issues env s ev); lia. }
  destruct (pending p (step env s ev)) eqn:Q.
  - apply IH; [exact B'| |exact P].
    apply step_orphan_stays; assumption.
  - rewrite (run_settled_stays env evs _ p B' Q) in P. discriminate P.
Qed.

(** What mounting does where nothing is mounted and an endpoint is
    configured. *)
Lemma step_mount_idle env s :
  truthy (backendHealthUrl env) = true -> active s = false ->
  fetch_log (step env s Mount) = fetch_log s ++ [probe_request env]
  /\ inflight (step env s Mount) = inflight s ++ [next_probe s]
  /\ timers (step env s Mount) = timers s ++ [mkTimer (next_timer s) 10000].
Proof.
  intros U A. unfold_step. rewrite A, U. repeat split.
Qed.

(** Without an endpoint the component never touches the host. *)
Lemma run_unconfigured env evs : forall s,
  backendHealthUrl env = "" ->
  isHealthy s = None -> timers s = [] -> inflight s = [] ->
  fetch_log (run env s evs) = fetch_log s
  /\ isHealthy (run env s evs) = None
  /\ timers (run env s evs) = []
  /\ inflight (run env s evs) = [].
Proof.
  induction evs as [|ev evs IH]; intros s U H T I; [auto|].
  rewrite run_cons.
  assert (St : fetch_log (step env s ev) = fetch_log s
               /\ isHealthy (step env s ev) = None
               /\ timers (step env s ev) = []
               /\ inflight (step env s ev) = []).
  { pose proof (proj2 (truthy_false_iff _) U) as U'.
    destruct ev as [| |h|p o]; unfold_step.
    - rewrite U'. destruct (active s); simpl; auto.
    - destruct (active s); [|auto].
      destruct (cleanup s); simpl; rewrite T; auto.
    - unfold timer_live. rewrite T. simpl. auto.
    - unfold pending. rewrite I. simpl. auto. }
  destruct St as (F & H' & T' & I').
  destruct (IH _ U H' T' I') as (F2 & H2 & T2 & I2).
  rewrite F2, F. auto.
Qed.

Lemma run_init_place env evs :
  timer_owned (run env init evs)
  /\ inflight_fresh (run env init evs)
  /\ (active (run env init evs) = false ->
      incl (inflight (run env init evs)) (orphaned (run env init evs))).
Proof.
  split; [apply run_timer_owned, init_timer_owned|].
  split; [apply run_inflight_fresh, init_inflight_fresh|].
  apply run_idle_orphans; [apply init_timer_owned|].
  intros _. apply incl_refl.
Qed.

Lemma render_fst (s : State) : fst (render s) = Normal (view (isHealthy s)).
Proof. reflexivity. Qed.

(** ** The poller after deactivation *)

(** C1: once the instance is unmounted, its timer is cancelled, and as
    long as nothing is mounted again no probe is issued and the status,
    hence what a render would show, stays what it was at the unmount,
    whatever settles. A probe that was in flight at the unmount never
    updates the status when it resolves, not even that of an instance
    mounted later. *)
Theorem unmount_freezes_status
        (env : option string) (evs evs' : list Event) (p : nat) (o : Outcome) :
  (forallb (fun ev => negb (is_mount ev)) evs' = true ->
   isHealthy (run env init (evs ++ Unmount :: evs'))
   = isHealthy (run env init evs)
   /\ fst (render (run env init (evs ++ Unmount :: evs')))
      = fst (render (run env init evs))
   /\ timers (run env init (evs ++ Unmount :: evs')) = []
   /\ fetch_log (run env init (evs ++ Unmount :: evs'))
      = fetch_log (run env init evs))
  /\ (pending p (run env init (evs ++ [Unmount])) = true ->
      isHealthy (step env (run env init (evs ++ Unmount :: evs')) (Settle p o))
      = isHealthy (run env init (evs ++ Unmount :: evs'))).
Proof.
  destruct (run_init_place env evs) as (Own & _ & Idle).
  destruct (step_unmount env _ Own Idle) as (U & H & F).
  split.
  - intros NM. rewrite run_app, run_cons.
    destruct (run_unmounted env evs' _ U NM) as ((_ & T & _) & H' & F').
    rewrite !render_fst, H', F', H, F. auto.
  - intros P.
    replace (evs ++ Unmount :: evs') with ((evs ++ [Unmount]) ++ evs')
      by (rewrite <- app_assoc; reflexivity).
    rewrite !run_app. rewrite run_app in P.
    change (run env (run env init evs) [Unmount])
      with (step env (run env init evs) Unmount) in *.
    set (u := step env (run env init evs) Unmount) in *.
    assert (O : orphan p u = true).
    { apply orphan_In. destruct U as (_ & _ & I). apply I, pending_In, P. }
    assert (B : p < next_probe u).
    { destruct (run_init_place env (evs ++ [Unmount])) as (_ & [_ Fr] & _).
      rewrite run_app in Fr.
      change (run env (run env init evs) [Unmount]) with u in Fr.
      rewrite Forall_forall in Fr. apply Fr, pending_In, P. }
    rewrite step_isHealthy.
    destruct (pending p (run env u evs')) eqn:Q; [|reflexivity].
    rewrite (run_orphan_stays env evs' u p B O Q). reflexivity.
Qed.

Lemma unmount_freezes_status_witness :
  (isHealthy (run endpoint init
                ([Mount] ++ Unmount :: [Tick 0; Settle 0 (Fulfilled (respond 200 "OK"))]))
   = isHealthy (run endpoint init [Mount])
   /\ fst (render (run endpoint init
                     ([Mount] ++ Unmount
                        :: [Tick 0; Settle 0 (Fulfilled (respond 200 "OK"))])))
      = fst (render (run endpoint init [Mount]))
   /\ timers (run endpoint init
                ([Mount] ++ Unmount
                   :: [Tick 0; Settle 0 (Fulfilled (respond 200 "OK"))])) = []
   /\ fetch_log (run endpoint init
                   ([Mount] ++ Unmount
                      :: [Tick 0; Settle 0 (Fulfilled (respond 200 "OK"))]))
      = fetch_log (run endpoint init [Mount]))
  /\ isHealthy (step endpoint (run endpoint init ([Mount] ++ Unmount :: [Mount]))
                     (Settle 0 (Fulfilled (respond 200 "OK"))))
     = isHealthy (run endpoint init ([Mount] ++ Unmount :: [Mount])).
Proof.
  split.
  - apply (proj1 (unmount_freezes_status endpoint [Mount]
                    [Tick 0; Settle 0 (Fulfilled (respond 200 "OK"))]
                    0 (Fulfilled (respond 200 "OK")))).
    reflexivity.
  - apply (proj2 (unmount_freezes_status endpoint [Mount] [Mount]
                    0 (Fulfilled (respond 200 "OK")))).
    reflexivity.
Defined.

(** Scenario E of the specification: unmounted right after the first
    probe was issued, whose answer 200 arrives later. *)
Example scenario_unmount_before_first_answer :
  isHealthy (run endpoint init
               [Mount; Unmount; Settle 0 (Fulfilled (respond 200 "OK"))])
  = None.
Proof. reflexivity. Qed.

(** ** Probe completion *)

(** C2: when a probe of a mounted instance completes, the continuation
    of [checkHealth] returns normally, the status becomes [true] for a
    response with a code in 200-299 and [false] for any other response
    and for a rejection, and a rejection, and nothing else, is added to
    the [console.error] output; the same holds for the event as a
    whole; and no run ever leaves an exception unhandled. *)
Theorem probe_completion_sets_status
        (env : option string) (s : State) (o : Outcome) :
  fst (checkHealth_resume o s) = Normal tt
  /\ isHealthy (snd (checkHealth_resume o s)) = Some (verdict o)
  /\ console (snd (checkHealth_resume o s))
     = console s ++ match o with
                    | Fulfilled _ => []
                    | Rejected e => [e]
                    end
  /\ (verdict o = true
      <-> exists r, o = Fulfilled r /\ (200 <= status r <= 299)%N)
  /\ (forall p,
        pending p s = true -> orphan p s = false ->
        isHealthy (step env s (Settle p o)) = Some (verdict o)
        /\ console (step env s (Settle p o))
           = console s ++ match o with
                          | Fulfilled _ => []
                          | Rejected e => [e]
                          end
        /\ unhandled (step env s (Settle p o)) = unhandled s)
  /\ forall evs, unhandled (run env init evs) = [].
Proof.
  split; [destruct o; reflexivity|].
  split; [destruct o; reflexivity|].
  split; [destruct o; simpl; rewrite ?app_nil_r; reflexivity|].
  split.
  { destruct o as [r|e]; simpl.
    - rewrite ok_iff_2xx. split.
      + intros H. exists r. split; [reflexivity|exact H].
      + intros (r' & E & H). injection E as <-. exact H.
    - split; [discriminate|]. intros (r & E & _). discriminate E. }
  split.
  - intros p P O.
    rewrite step_isHealthy, step_console, step_unhandled, P, O.
    destruct o; simpl; rewrite ?app_nil_r; auto.
  - intros evs. apply run_unhandled.
Qed.

Lemma probe_completion_sets_status_witness :
  isHealthy (step endpoint (run endpoint init [Mount])
                  (Settle 0 (Rejected "ETIMEDOUT")))
  = Some (verdict (Rejected "ETIMEDOUT"))
  /\ console (step endpoint (run endpoint init [Mount])
                   (Settle 0 (Rejected "ETIMEDOUT")))
     = console (run endpoint init [Mount]) ++ ["ETIMEDOUT"]
  /\ unhandled (step endpoint (run endpoint init [Mount])
                     (Settle 0 (Rejected "ETIMEDOUT")))
     = unhandled (run endpoint init [Mount]).
Proof.
  apply (proj1 (proj2 (proj2 (proj2 (proj2
           (probe_completion_sets_status endpoint (run endpoint init [Mount])
              (Rejected "ETIMEDOUT")))))) 0);
    reflexivity.
Defined.

(** C3: while the poller is active (no unmount takes place), the status
    after any run is the verdict of the probe that completed last, in
    completion order, whatever order the probes were issued in, and a
    render shows it; a completing probe of the mounted instance
    overwrites the status without looking at it. *)
Theorem status_is_latest_completion (env : option string) (evs : list Event) :
  forallb (fun ev => negb (is_unmount ev)) evs = true ->
  isHealthy (run env init evs)
  = option_map verdict (latest (completions env init evs))
  /\ fst (render (run env init evs))
     = Normal (view (option_map verdict (latest (completions env init evs))))
  /\ forall s p o,
       isHealthy (step env s (Settle p o))
       = if pending p s && negb (orphan p s) then Some (verdict o)
         else isHealthy s.
Proof.
  intros NU.
  assert (E : isHealthy (run env init evs)
              = option_map verdict (latest (completions env init evs))).
  { rewrite (run_isHealthy env evs init init_never_unmounted NU).
    rewrite fold_verdict_latest.
    destruct (latest (completions env init evs)); reflexivity. }
  split; [exact E|]. split.
  - unfold render, gets, bind, ret. simpl. rewrite E. reflexivity.
  - intros s p o. apply (step_isHealthy env s (Settle p o)).
Qed.

Lemma status_is_latest_completion_witness :
  isHealthy (run endpoint init
               [Mount; Tick 0;
                Settle 1 (Fulfilled (respond 200 "OK"));
                Settle 0 (Fulfilled (respond 500 "Internal Server Error"))])
  = Some false.
Proof.
  apply (proj1 (status_is_latest_completion endpoint
                  [Mount; Tick 0;
                   Settle 1 (Fulfilled (respond 200 "OK"));
                   Settle 0 (Fulfilled (respond 500 "Internal Server Error"))]
                  eq_refl)).
Defined.

(** Scenario D of the specification: the server answers 200, 500, 200
    on three consecutive probes. *)
Example scenario_alternating_answers :
  map (fun evs => isHealthy (run endpoint init evs))
      [ [Mount; Settle 0 (Fulfilled (respond 200 "OK"))];
        [Mount; Settle 0 (Fulfilled (respond 200 "OK")); Tick 0;
         Settle 1 (Fulfilled (respond 500 "Internal Server Error"))];
        [Mount; Settle 0 (Fulfilled (respond 200 "OK")); Tick 0;
         Settle 1 (Fulfilled (respond 500 "Internal Server Error")); Tick 0;
         Settle 2 (Fulfilled (respond 200 "OK"))] ]
  = [Some true; Some false; Some true].
Proof. reflexivity. Qed.

(** ** Configuration *)

(** C4: with the endpoint absent or empty, whatever happens to the
    instance, no request is issued, no timer is registered and the
    status stays [null] (rendered as "Checking..."). *)
Theorem unconfigured_never_probes (env : option string) (evs : list Event) :
  env = None \/ env = Some "" ->
  fetch_log (run env init evs) = []
  /\ timers (run env init evs) = []
  /\ isHealthy (run env init evs) = None
  /\ textContent (view (isHealthy (run env init evs))) = "Checking...".
Proof.
  intros E. apply backendHealthUrl_empty_iff in E.
  destruct (run_unconfigured env evs init E eq_refl eq_refl eq_refl)
    as (F & H & T & _).
  rewrite F, H, T. repeat split.
Qed.

Lemma unconfigured_never_probes_witness :
  fetch_log (run None init [Mount; Tick 0; Unmount; Mount]) = []
  /\ timers (run None init [Mount; Tick 0; Unmount; Mount]) = []
  /\ isHealthy (run None init [Mount; Tick 0; Unmount; Mount]) = None
  /\ textContent (view (isHealthy (run None init [Mount; Tick 0; Unmount; Mount])))
     = "Checking...".
Proof.
  apply (unconfigured_never_probes None [Mount; Tick 0; Unmount; Mount]).
  left. reflexivity.
Defined.

(** ** Activation and the polling timer *)

(** C5: mounting an idle instance with a non-empty endpoint issues
    exactly one probe at once and registers one repeating timer of
    10000 ms; from then on, as long as the instance is not unmounted,
    the requests issued are that first one plus one per firing of the
    timer, whatever probes have or have not settled in between. *)
Theorem mount_probes_now_and_every_10s
        (env : option string) (pre evs : list Event) :
  backendHealthUrl env <> "" ->
  active (run env init pre) = false ->
  forallb (fun ev => negb (is_unmount ev)) evs = true ->
  fetch_log (step env (run env init pre) Mount)
  = fetch_log (run env init pre) ++ [probe_request env]
  /\ inflight (step env (run env init pre) Mount)
     = inflight (run env init pre) ++ [next_probe (run env init pre)]
  /\ timers (step env (run env init pre) Mount)
     = [mkTimer (next_timer (run env init pre)) 10000]
  /\ fetch_log (run env (run env init pre) (Mount :: evs))
     = fetch_log (run env init pre)
       ++ repeat (probe_request env)
            (1 + count_if (is_tick_of (next_timer (run env init pre))) evs).
Proof.
  intros U A NU. apply truthy_true_iff in U.
  pose proof (run_timer_owned env pre init init_timer_owned) as Own.
  destruct (timer_owned_bound _ Own) as [_ T]. specialize (T A).
  set (s := run env init pre) in *.
  destruct (step_mount_idle env s U A) as (F & I & T').
  rewrite T in T'. simpl in T'.
  split; [exact F|]. split; [exact I|]. split; [exact T'|].
  rewrite run_cons.
  rewrite (run_fetch_log_live env (next_timer s) evs (step env s Mount));
    [| rewrite step_active; reflexivity | exact T' | exact NU].
  rewrite F. simpl. rewrite <- app_assoc. reflexivity.
Qed.

Lemma mount_probes_now_and_every_10s_witness :
  fetch_log (step endpoint (run endpoint init []) Mount)
  = fetch_log (run endpoint init []) ++ [probe_request endpoint]
  /\ inflight (step endpoint (run endpoint init []) Mount)
     = inflight (run endpoint init []) ++ [next_probe (run endpoint init [])]
  /\ timers (step endpoint (run endpoint init []) Mount)
     = [mkTimer (next_timer (run endpoint init [])) 10000]
  /\ fetch_log (run endpoint (run endpoint init [])
                    (Mount :: [Tick 0; Tick 0;
                               Settle 1 (Rejected "timeout"); Tick 0]))
     = fetch_log (run endpoint init [])
       ++ repeat (probe_request endpoint)
            (1 + count_if (is_tick_of (next_timer (run endpoint init [])))
                   [Tick 0; Tick 0; Settle 1 (Rejected "timeout"); Tick 0]).
Proof.
  apply (mount_probes_now_and_every_10s endpoint []
           [Tick 0; Tick 0; Settle 1 (Rejected "timeout"); Tick 0]).
  - discriminate.
  - reflexivity.
  - reflexivity.
Defined.

(** C7: in every run, over any number of mount/unmount cycles, the
    instance has at most one timer registered, and none whenever its
    effect is not live. *)
Theorem at_most_one_timer (env : option string) (evs : list Event) :
  List.length (timers (run env init evs)) <= 1
  /\ (active (run env init evs) = false -> timers (run env init evs) = []).
Proof.
  apply timer_owned_bound, run_timer_owned, init_timer_owned.
Qed.

Lemma at_most_one_timer_witness :
  List.length (timers (run endpoint init [Mount; Unmount; Mount; Mount])) <= 1
  /\ timers (run endpoint init [Mount; Tick 0; Unmount; Mount; Unmount]) = [].
Proof.
  split.
  - apply (at_most_one_timer endpoint [Mount; Unmount; Mount; Mount]).
  - apply (at_most_one_timer endpoint [Mount; Tick 0; Unmount; Mount; Unmount]).
    reflexivity.
Defined.

(** ** Rendering *)

(** C6: a render returns the JSX determined by the status alone and
    leaves the instance and the host untouched: [null] gives the grey
    "Checking..." text, [true] the green dot with "Backend healthy",
    [false] the red dot with "Backend down". *)
Theorem render_is_pure_view (s : State) :
  render s = (Normal (view (isHealthy s)), s)
  /\ view None = Element "span" "text-gray-500" [Text "Checking..."]
  /\ view (Some true)
     = Element "div" "flex items-center gap-2"
         [ Element "div" "h-3 w-3 rounded-full bg-green-500" [];
           Element "span" "text-sm" [Text "Backend healthy"] ]
  /\ view (Some false)
     = Element "div" "flex items-center gap-2"
         [ Element "div" "h-3 w-3 rounded-full bg-red-500" [];
           Element "span" "text-sm" [Text "Backend down"] ].
Proof. repeat split. Qed.

(** Scenarios A and B of the specification. *)
Example scenario_first_probe_200 :
  textContent (view (isHealthy (run endpoint init
     [Mount; Settle 0 (Fulfilled (respond 200 "OK"))])))
  = "Backend healthy".
Proof. reflexivity. Qed.

Example scenario_first_probe_503 :
  textContent (view (isHealthy (run endpoint init
     [Mount; Settle 0 (Fulfilled (respond 503 "Service Unavailable"))])))
  = "Backend down".
Proof. reflexivity. Qed.

(** ** The request of a probe *)

(** C8, as stated, fails: the probe issued at mount is sent with the
    default cache mode, not with [no-store]. *)
Lemma probe_request_is_not_no_store :
  ~ Forall (fun r => method r = GET /\ cache r = NoStore)
           (fetch_log (run endpoint init [Mount])).
Proof.
  intros H. inversion H as [|r l [_ C] _]. discriminate C.
Qed.

(** C8, amended: every probe is a GET to the configured endpoint, made
    by calling [fetch] with the URL alone, hence with the default cache
    mode (no cache option is passed). *)
Theorem every_probe_is_plain_get (env : option string) (evs : list Event) :
  Forall (fun r => r = {| url := backendHealthUrl env;
                          method := GET;
                          cache := CacheDefault |})
         (fetch_log (run env init evs)).
Proof.
  assert (G : forall s,
             Forall (fun r => r = probe_request env) (fetch_log s) ->
             Forall (fun r => r = probe_request env) (fetch_log (run env s evs))).
  { induction evs as [|ev evs IH]; intros s H; [exact H|].
    rewrite run_cons. apply IH. rewrite step_fetch_log.
    destruct (issues env s ev); [|exact H].
    apply Forall_app. split; [exact H|]. constructor; [reflexivity|constructor]. }
  apply (G init). constructor.
Qed.

(** ** The server-rendered components *)

(** C9, as stated, fails: when the connection is refused, the promise
    of [fetch] rejects and [JsonStatusServer] throws instead of
    returning an element. *)
Lemma json_fetch_rejection_is_thrown :
  fst (JsonStatusServer absolute (always (Rejected "ECONNREFUSED")) None
         string raw_parse raw_stringify [])
  = Throw "ECONNREFUSED".
Proof. reflexivity. Qed.

(** C9, amended: a fetch that completes with a response that is not ok
    is surfaced by [JsonStatusServer] as the inline message
    "Failed to fetch JSON: <status> <statusText>"; a fetch whose promise
    rejects is not caught and is thrown out of the component. *)
Theorem json_failure_inline_or_thrown
        (url_error : string -> option Err)
        (env : option string) (Data : Type)
        (parse : string -> Err + Data) (stringify : Data -> string)
        (log : list Request) :
  (forall network r,
      promise url_error network (json_request env) = Fulfilled r ->
      ok r = false ->
      fst (JsonStatusServer url_error network env Data parse stringify log)
      = Normal (fetch_failed r)
      /\ textContent (fetch_failed r)
         = ("Failed to fetch JSON: " ++ decimal (status r) ++ " "
            ++ statusText r)%string)
  /\ (forall network e,
        promise url_error network (json_request env) = Rejected e ->
        fst (JsonStatusServer url_error network env Data parse stringify log)
        = Throw e).
Proof.
  split.
  - intros network r N K. split.
    + unfold JsonStatusServer, perform, bind. fold (json_request env).
      rewrite N. simpl. rewrite K. reflexivity.
    + simpl. rewrite string_app_empty. reflexivity.
  - intros network e N.
    unfold JsonStatusServer, perform, bind. fold (json_request env).
    rewrite N. reflexivity.
Qed.

Lemma json_failure_inline_or_thrown_witness :
  (fst (JsonStatusServer absolute
          (always (Fulfilled (respond 503 "Service Unavailable"))) None
          string raw_parse raw_stringify [])
   = Normal (fetch_failed (respond 503 "Service Unavailable"))
   /\ textContent (fetch_failed (respond 503 "Service Unavailable"))
      = "Failed to fetch JSON: 503 Service Unavailable"%string)
  /\ fst (JsonStatusServer absolute (always (Rejected "ETIMEDOUT")) None
            string raw_parse raw_stringify [])
     = Throw "ETIMEDOUT".
Proof.
  split.
  - apply (proj1 (json_failure_inline_or_thrown absolute None string raw_parse
                    raw_stringify [])
             (always (Fulfilled (respond 503 "Service Unavailable")))
             (respond 503 "Service Unavailable")); reflexivity.
  - apply (proj2 (json_failure_inline_or_thrown absolute None string raw_parse
                    raw_stringify [])
             (always (Rejected "ETIMEDOUT")) "ETIMEDOUT"); reflexivity.
Defined.

(** C10: when the promise of its single [fetch] rejects,
    [HealthStatusServer] does not catch the rejection: the component
    throws and returns no element, whereas the continuation of the
    client-side [checkHealth] on the same rejection returns normally
    with the status set to [false]. *)
Theorem server_health_rejection_is_thrown
        (url_error : string -> option Err)
        (network : Request -> Outcome) (env : option string)
        (log : list Request) (e : Err) (s : State) :
  promise url_error network (health_request env) = Rejected e ->
  HealthStatusServer url_error network env log
  = (Throw e, log ++ sent url_error (health_request env))
  /\ fst (checkHealth_resume (Rejected e) s) = Normal tt
  /\ isHealthy (snd (checkHealth_resume (Rejected e) s)) = Some false.
Proof.
  intros N. split; [|split; reflexivity].
  unfold HealthStatusServer, perform, bind. fold (health_request env).
  rewrite N. reflexivity.
Qed.

Lemma server_health_rejection_is_thrown_witness :
  HealthStatusServer absolute (always (Rejected "ECONNREFUSED")) endpoint []
  = (Throw "ECONNREFUSED", [] ++ sent absolute (health_request endpoint))
  /\ fst (checkHealth_resume (Rejected "ECONNREFUSED") init) = Normal tt
  /\ isHealthy (snd (checkHealth_resume (Rejected "ECONNREFUSED") init))
     = Some false.
Proof.
  apply (server_health_rejection_is_thrown absolute
           (always (Rejected "ECONNREFUSED")) endpoint [] "ECONNREFUSED" init).
  reflexivity.
Defined.

(** With [BACKEND_HEALTH_URL] absent, [fetch] is handed [undefined]; a
    parser of absolute URLs rejects it, nothing is sent and the
    [TypeError] is thrown out of the component. *)
Example server_health_without_url :
  HealthStatusServer absolute (always (Fulfilled (respond 200 "OK"))) None []
  = (Throw "TypeError: Invalid URL", []).
Proof. reflexivity. Qed.

(** * Further properties of the components *)

(** ** The poller: status, log and pending probes *)

(** While the instance stays mounted, the status is [null] exactly as
    long as no probe has completed: mounting and timer ticks never set
    it, and once a probe has completed no later event brings [null]
    back. *)
Theorem status_unknown_until_first_completion
        (env : option string) (evs evs' : list Event) :
  forallb (fun ev => negb (is_unmount ev)) (evs ++ evs') = true ->
  (isHealthy (run env init evs) = None <-> completions env init evs = [])
  /\ (isHealthy (run env init evs) <> None ->
      isHealthy (run env init (evs ++ evs')) <> None).
Proof.
  intros NU.
  assert (K : forall l, forallb (fun ev => negb (is_unmount ev)) l = true ->
                        (isHealthy (run env init l) = None
                         <-> completions env init l = [])).
  { intros l NUl.
    rewrite (run_isHealthy env l init init_never_unmounted NUl).
    rewrite fold_verdict_latest, <- latest_none_iff.
    destruct (latest (completions env init l)); simpl; split;
      intros E; try discriminate E; reflexivity. }
  pose proof NU as NU'. rewrite forallb_app in NU'.
  apply andb_true_iff in NU' as [NU1 _].
  split; [apply K, NU1|].
  intros H E. apply H. apply (K evs NU1). apply (K _ NU) in E.
  rewrite completions_app in E. apply app_eq_nil in E. apply E.
Qed.

Lemma status_unknown_until_first_completion_witness :
  (isHealthy (run endpoint init [Mount; Settle 0 (Rejected "down")]) = None
   <-> completions endpoint init [Mount; Settle 0 (Rejected "down")] = [])
  /\ isHealthy (run endpoint init
                   ([Mount; Settle 0 (Rejected "down")] ++ [Tick 0; Mount]))
     <> None.
Proof.
  destruct (status_unknown_until_first_completion endpoint
              [Mount; Settle 0 (Rejected "down")] [Tick 0; Mount] eq_refl)
    as [H1 H2].
  split; [exact H1|]. apply H2. discriminate.
Defined.

(** [console.error] receives exactly the reasons of the probes whose
    promise rejected, once each and in completion order; a response
    with an error status is never logged. *)
Theorem console_logs_rejections_only (env : option string) (evs : list Event) :
  console (run env init evs) = rejections (completions env init evs).
Proof.
  assert (G : forall s, console (run env s evs)
                        = console s ++ rejections (completions env s evs)).
  { induction evs as [|ev evs IH]; intros s.
    - simpl. rewrite app_nil_r. reflexivity.
    - rewrite run_cons, IH, step_console. simpl completions.
      unfold rejections. rewrite flat_map_app. fold rejections.
      rewrite app_assoc. f_equal.
      destruct ev as [| |h|p [r|e]]; simpl; try (rewrite app_nil_r; reflexivity);
        destruct (pending p s); simpl; rewrite ?app_nil_r; reflexivity. }
  apply (G init).
Qed.

(** Every probe the component has issued has either completed or is
    still pending: nothing, in particular not an unmount, ever cancels
    or drops a request. *)
Theorem every_probe_completes_or_is_pending
        (env : option string) (evs : list Event) :
  List.length (fetch_log (run env init evs))
  = List.length (completions env init evs)
    + List.length (inflight (run env init evs)).
Proof.
  assert (G : forall s, inflight_fresh s ->
             List.length (fetch_log (run env s evs)) + List.length (inflight s)
             = List.length (fetch_log s)
               + List.length (completions env s evs)
               + List.length (inflight (run env s evs))).
  { induction evs as [|ev evs IH]; intros s Fr; [simpl; lia|].
    rewrite run_cons. simpl completions. rewrite length_app.
    specialize (IH _ (step_inflight_fresh env s ev Fr)).
    rewrite step_fetch_log in IH.
    rewrite (proj1 (step_inflight env s ev)) in IH.
    destruct ev as [| |h|p o].
    - destruct (issues env s Mount);
        rewrite ?length_app in IH; simpl in *; lia.
    - simpl in *. lia.
    - destruct (issues env s (Tick h));
        rewrite ?length_app in IH; simpl in *; lia.
    - simpl issues in IH. cbv iota in IH.
      destruct (pending p s) eqn:P; simpl in *; [|lia].
      apply pending_In in P.
      pose proof (filter_out_length p (inflight s) (proj1 Fr) P). lia. }
  specialize (G init). simpl in G. rewrite <- G; [lia|].
  split; constructor.
Qed.

(** An unmount leaves the pending probes as they are. *)
Example unmount_keeps_probe_pending :
  inflight (run endpoint init [Mount; Tick 0; Unmount]) = [0; 1].
Proof. reflexivity. Qed.

(** ** What the poller shows *)

(** The text shown identifies the status: two statuses that render with
    the same text are the same status, so "Checking...", "Backend
    healthy" and "Backend down" are never confused. *)
Theorem view_text_identifies_status (a b : option bool) :
  textContent (view a) = textContent (view b) -> a = b.
Proof.
  destruct a as [[|]|], b as [[|]|]; simpl; intros E;
    try reflexivity; discriminate E.
Qed.

Lemma view_text_identifies_status_witness :
  Some (ok (respond 204 "No Content")) = Some true.
Proof.
  apply (view_text_identifies_status
           (Some (ok (respond 204 "No Content"))) (Some true)).
  reflexivity.
Defined.

(** ** The server-rendered health check *)



(** ** The JSON viewer *)


(** With [BACKEND_JSON_URL] set to the empty string there is no
    fallback: [fetch] is handed the empty string, which a parser of
    absolute URLs rejects. *)
Example json_empty_url_is_not_replaced :
  JsonStatusServer absolute (always (Fulfilled (respond 200 "OK"))) (Some "")
    string raw_parse raw_stringify []
  = (Throw "TypeError: Invalid URL", []).
Proof. reflexivity. Qed.

(** A response that is ok but whose body is not valid JSON is not
    turned into the inline message: the error of [res.json()] is thrown
    out of the component. *)
Theorem json_unparsable_body_is_thrown
        (url_error : string -> option Err)
        (network : Request -> Outcome) (env : option string) (Data : Type)
        (parse : string -> Err + Data) (stringify : Data -> string)
        (log : list Request) (r : Response) (e : Err) :
  promise url_error network (json_request env) = Fulfilled r ->
  ok r = true ->
  parse (body r) = inl e ->
  fst (JsonStatusServer url_error network env Data parse stringify log)
  = Throw e.
Proof.
  intros N K P.
  unfold JsonStatusServer, perform, bind, json. fold (json_request env).
  rewrite N. simpl. rewrite K. simpl. rewrite P. reflexivity.
Qed.

Lemma json_unparsable_body_is_thrown_witness :
  fst (JsonStatusServer absolute (always (Fulfilled (respond 200 "OK"))) None
         string (fun _ => inl "Unexpected end of JSON input") raw_stringify [])
  = Throw "Unexpected end of JSON input".
Proof.
  apply (json_unparsable_body_is_thrown absolute
           (always (Fulfilled (respond 200 "OK"))) None string
           (fun _ => inl "Unexpected end of JSON input") raw_stringify []
           (respond 200 "OK") "Unexpected end of JSON input");
    reflexivity.
Defined.

(** An ok response with a JSON body is shown as the heading "Backend
    JSON Response" followed by the document printed with
    [JSON.stringify(data, null, 2)]; the status line of the response is
    not shown. *)
Theorem json_document_is_shown
        (url_error : string -> option Err)
        (network : Request -> Outcome) (env : option string) (Data : Type)
        (parse : string -> Err + Data) (stringify : Data -> string)
        (log : list Request) (r : Response) (d : Data) :
  promise url_error network (json_request env) = Fulfilled r ->
  ok r = true ->
  parse (body r) = inr d ->
  exists v,
    fst (JsonStatusServer url_error network env Data parse stringify log)
    = Normal v
    /\ textContent v = ("Backend JSON Response" ++ stringify d)%string.
Proof.
  intros N K P.
  unfold JsonStatusServer, perform, bind, json. fold (json_request env).
  rewrite N. simpl. rewrite K. simpl. rewrite P. simpl.
  eexists. split; [reflexivity|].
  simpl. rewrite !string_app_empty. reflexivity.
Qed.

Lemma json_document_is_shown_witness :
  exists v,
    fst (JsonStatusServer absolute
           (always (Fulfilled {| status := 200; statusText := "OK";
                                 body := "{}" |}))
           None string raw_parse raw_stringify [])
    = Normal v
    /\ textContent v = ("Backend JSON Response" ++ raw_stringify "{}")%string.
Proof.
  apply (json_document_is_shown absolute
           (always (Fulfilled {| status := 200; statusText := "OK";
                                 body := "{}" |}))
           None string raw_parse raw_stringify []
           {| status := 200; statusText := "OK"; body := "{}" |} "{}");
    reflexivity.
Defined.

(** ** The button *)

(** A rendered button shows its [text] and nothing else, and [n] clicks
    on it call the handler exactly [n] times (with [jest.fn()] as
    handler, as in the component's test). *)
Theorem button_click_calls_handler
        (label : string) (n calls : nat) :
  Button.children nat
    (Button.Button nat {| Button.text := label; Button.onClick := Button.jest_fn |})
  = [Text label]
  /\ Button.clicks nat n
       (Button.Button nat {| Button.text := label; Button.onClick := Button.jest_fn |})
       calls
     = calls + n.
Proof.
  split; [reflexivity|].
  unfold Button.clicks. induction n as [|n IH]; simpl; [lia|].
  rewrite IH. unfold Button.click, Button.jest_fn, modify. simpl. lia.
Qed.
